(** * Matrix.h: a constrained integer matrix

    A shallow embedding of the class [Matrix] of [src/Matrix.h] and the
    properties of its constructors, row and column accessors, constraint
    checks and exception messages.

    Conventions of the embedding.
    - [int] is [Z]; the code only compares ints, so no arithmetic wraps.
    - [size_t] is [nat]; the code only compares and increments indices.
    - [vector<T>] is [list T]; [operator[]] on an index that is not below
      [size()] is undefined behaviour and is written out as [Undefined].
    - A member function is a computation over the object's state that
      returns normally, throws a [Matrix::Exception], aborts on a failed
      [assert], or runs into undefined behaviour.
    - Allocation failure is left out, and so are the defaulted default,
      copy and move constructors and the copy assignment. *)

From Stdlib Require Import ZArith String.
From stdpp Require Import base list relations.

Set Default Proof Using "Type".

(** ** Exceptions *)

Inductive ExceptionType := constraintViolation | invalidSize | outOfRange.

#[global] Instance ExceptionType_eq_dec : EqDecision ExceptionType.
Proof. solve_decision. Defined.

(** The enumerators number from zero in declaration order; [what] uses the
    enumerator as an index into [errMsg]. *)
Definition ExceptionType_index (t : ExceptionType) : nat :=
  match t with
  | constraintViolation => 0
  | invalidSize => 1
  | outOfRange => 2
  end.

Record Exception := mkException { m_type : ExceptionType }.

#[global] Instance Exception_eq_dec : EqDecision Exception.
Proof. solve_decision. Defined.

(** ** Outcomes and the state monad of member functions *)

Module Eff.

Inductive result (A : Type) : Type :=
| Ret (a : A)
| Throw (e : Exception)
| Abort
| Undefined.
Arguments Ret {A} a.
Arguments Throw {A} e.
Arguments Abort {A}.
Arguments Undefined {A}.

Definition M (S A : Type) : Type := S -> result A * S.

Definition ret {S A} (a : A) : M S A := fun s => (Ret a, s).

Definition bind {S A B} (c : M S A) (k : A -> M S B) : M S B :=
  fun s =>
    match c s with
    | (Ret a, s') => k a s'
    | (Throw e, s') => (Throw e, s')
    | (Abort, s') => (Abort, s')
    | (Undefined, s') => (Undefined, s')
    end.

Definition throw {S A} (t : ExceptionType) : M S A :=
  fun s => (Throw (mkException t), s).

Definition undefined {S A} : M S A := fun s => (Undefined, s).

Definition get {S} : M S S := fun s => (Ret s, s).

Definition put {S} (s : S) : M S unit := fun _ => (Ret tt, s).

(** A value computed without access to the state. *)
Definition lift {S A} (r : result A) : M S A := fun s => (r, s).

(** [std::for_each(first, last, f)]: [f] on every element, in order. *)
Fixpoint for_each {S X} (l : list X) (f : X -> M S unit) : M S unit :=
  match l with
  | [] => ret tt
  | x :: rest => bind (f x) (fun _ => for_each rest f)
  end.

End Eff.
Import Eff.

Notation "x <- c1 ;; c2" := (bind c1 (fun x => c2))
  (at level 100, c1 at next level, right associativity).
Notation "c1 ;; c2" := (bind c1 (fun _ => c2))
  (at level 100, right associativity).

(** ** Constraints *)

Inductive ConstaintType :=
  equal | notEqual | greater | greaterOrEqual | less | lessOrEqual.

#[global] Instance ConstaintType_eq_dec : EqDecision ConstaintType.
Proof. solve_decision. Defined.

(** [std::map::find]: the entry stored under the key, if there is one. *)
Fixpoint map_find {V} (k : ConstaintType) (m : list (ConstaintType * V))
  : option V :=
  match m with
  | [] => None
  | (k', v) :: rest => if decide (k = k') then Some v else map_find k rest
  end.

Definition validationMap : list (ConstaintType * (Z -> Z -> bool)) :=
  [ (equal, fun valToCheck value => (valToCheck =? value)%Z);
    (notEqual, fun valToCheck value => negb (valToCheck =? value)%Z);
    (greater, fun valToCheck value => (valToCheck >? value)%Z);
    (greaterOrEqual, fun valToCheck value => (valToCheck >=? value)%Z);
    (less, fun valToCheck value => (valToCheck <? value)%Z);
    (lessOrEqual, fun valToCheck value => (valToCheck <=? value)%Z) ].

Record Constraint := mkConstraint { type : ConstaintType; value : Z }.

Definition check (c : Constraint) (val : Z) : result bool :=
  match map_find (type c) validationMap with
  | None => Abort
  | Some f => Ret (f val (value c))
  end.

(** ** Error messages *)

Definition errMsg : list string :=
  [ "One or more elements of matrix violate constraints."%string;
    "All rows in matrix must have the same size."%string;
    "Index is out of range when requested raw/column data."%string ].

Definition what (e : Exception) : result string :=
  match errMsg !! ExceptionType_index (m_type e) with
  | Some s => Ret s
  | None => Undefined
  end.

(** ** The matrix *)

Record Matrix := mkMatrix {
  m_numRows : nat;
  m_numColumns : nat;
  m_Data : list (list Z);
  m_Constraints : list Constraint
}.

Definition with_numColumns (n : nat) (m : Matrix) : Matrix :=
  mkMatrix (m_numRows m) n (m_Data m) (m_Constraints m).

Definition with_Data (d : list (list Z)) (m : Matrix) : Matrix :=
  mkMatrix (m_numRows m) (m_numColumns m) d (m_Constraints m).

(** *** Validation: the three overloads of [checkConstraints] *)

Definition checkConstraints (val : Z) : M Matrix unit :=
  m <- get ;;
  for_each (m_Constraints m) (fun c =>
    ok <- lift (check c val) ;;
    if negb ok then throw constraintViolation else ret tt).

Definition checkConstraints_vec (values : list Z) : M Matrix unit :=
  for_each values (fun val => checkConstraints val).

Definition checkConstraints_grid : M Matrix unit :=
  m <- get ;;
  for_each (m_Data m) (fun row =>
    for_each row (fun val => checkConstraints val)).

(** *** Constructors

    A constructor runs its body on the object whose members have been
    initialised by the member initialiser list; the state paired with a
    [Throw] is the object as it was when the exception left the body. *)

Definition Matrix_of_size (numRows numColumns : nat) (fillWith : Z)
    (constraints : list Constraint) : result unit * Matrix :=
  ( checkConstraints fillWith ;;
    m <- get ;;
    for_each (seq 0 (m_numRows m)) (fun _ =>
      m <- get ;;
      let row := replicate (m_numColumns m) 0%Z in
      let row := (fun _ => fillWith) <$> row in
      put (with_Data (m_Data m ++ [row]) m)) )
  (mkMatrix numRows numColumns [] constraints).

Definition Matrix_of_data (data : list (list Z)) (fillWith : Z)
    (constraints : list Constraint) : result unit * Matrix :=
  ( m <- get ;;
    if 0 <? length (m_Data m) then
      match head (m_Data m) with
      | Some front => put (with_numColumns (length front) m)
      | None => undefined
      end ;;
      m <- get ;;
      for_each (m_Data m) (fun row =>
        m <- get ;;
        if negb (length row =? m_numColumns m)
        then throw invalidSize else ret tt)
    else ret tt )
  (mkMatrix (length data) 0 data constraints).

(** *** Row access *)

(** The returned reference designates [m_Data[row]]; the embedding returns
    the row that reference shows. *)
Definition getRow (row : nat) : M Matrix (list Z) :=
  m <- get ;;
  if m_numRows m <? row then throw outOfRange
  else match m_Data m !! row with
       | Some r => ret r
       | None => undefined
       end.

Definition setRow (row : nat) (data : list Z) : M Matrix unit :=
  m <- get ;;
  if m_numRows m <? row then throw outOfRange
  else if negb (length data =? m_numColumns m) then throw invalidSize
  else
    checkConstraints_vec data ;;
    m <- get ;;
    if row <? length (m_Data m)
    then put (with_Data (<[row := data]> (m_Data m)) m)
    else undefined.

(** The overload taking [vector<int>&&] has the same body. *)
Definition setRow_rvalue (row : nat) (data : list Z) : M Matrix unit :=
  m <- get ;;
  if m_numRows m <? row then throw outOfRange
  else if negb (length data =? m_numColumns m) then throw invalidSize
  else
    checkConstraints_vec data ;;
    m <- get ;;
    if row <? length (m_Data m)
    then put (with_Data (<[row := data]> (m_Data m)) m)
    else undefined.

(** *** Column access *)

(** [m_Data[row][col] = val] *)
Definition assign_cell (row col : nat) (val : Z) : M Matrix unit :=
  m <- get ;;
  match m_Data m !! row with
  | None => undefined
  | Some r =>
      if col <? length r
      then put (with_Data (<[row := <[col := val]> r]> (m_Data m)) m)
      else undefined
  end.

(** The [for_each] over [data] with the captured counter [row]. *)
Fixpoint setColumn_loop (col : nat) (data : list Z) (row : nat)
  : M Matrix unit :=
  match data with
  | [] => ret tt
  | val :: rest =>
      assign_cell row col val ;; setColumn_loop col rest (S row)
  end.

Definition setColumn (col : nat) (data : list Z) : M Matrix unit :=
  m <- get ;;
  if m_numColumns m <? col then throw outOfRange
  else if negb (length data =? m_numRows m) then throw invalidSize
  else
    checkConstraints_vec data ;;
    setColumn_loop col data 0.

Definition setColumn_rvalue (col : nat) (data : list Z) : M Matrix unit :=
  m <- get ;;
  if m_numColumns m <? col then throw outOfRange
  else if negb (length data =? m_numRows m) then throw invalidSize
  else
    checkConstraints_vec data ;;
    setColumn_loop col data 0.

(** [getColumn] is a const member that builds the column in the local
    [colData] and returns [vector<int>&&], an rvalue reference bound to
    that local. Its state is the automatic storage of the call: one slot
    per local vector, [Some] while the object lives and [None] once its
    scope has ended. The value returned is the slot the reference
    designates. *)
Module Automatic.

Abbreviation storage := (list (option (list Z))).

Definition declare (init : list Z) : M storage nat :=
  st <- get ;; put (st ++ [Some init]) ;; ret (length st).

Definition push_back (l : nat) (v : Z) : M storage unit :=
  st <- get ;;
  match st !! l with
  | Some (Some vec) => put (<[l := Some (vec ++ [v])]> st)
  | _ => undefined
  end.

Definition end_of_scope (l : nat) : M storage unit :=
  st <- get ;; put (<[l := None]> st).

(** Reading through a reference to slot [l]. *)
Definition read (l : nat) : M storage (list Z) :=
  st <- get ;;
  match st !! l with
  | Some (Some vec) => ret vec
  | _ => undefined
  end.

End Automatic.

Definition getColumn (m : Matrix) (col : nat) : M Automatic.storage nat :=
  if m_numRows m <? col then throw outOfRange
  else
    colData <- Automatic.declare [] ;;
    for_each (m_Data m) (fun row =>
      match row !! col with
      | Some v => Automatic.push_back colData v
      | None => undefined
      end) ;;
    Automatic.end_of_scope colData ;;
    ret colData.

(** ** Predicates on matrices *)

(** [candidate] stands in the comparison named by [kind] to [reference]. *)
Definition comparison (kind : ConstaintType) (candidate reference : Z)
  : Prop :=
  match kind with
  | equal => (candidate = reference)%Z
  | notEqual => (candidate <> reference)%Z
  | greater => (candidate > reference)%Z
  | greaterOrEqual => (candidate >= reference)%Z
  | less => (candidate < reference)%Z
  | lessOrEqual => (candidate <= reference)%Z
  end.

(** The boolean [check] computes when it returns. *)
Definition holds (c : Constraint) (val : Z) : bool :=
  match check c val with
  | Ret b => b
  | _ => false
  end.

Definition satisfies_all (cs : list Constraint) (val : Z) : Prop :=
  Forall (fun c => check c val = Ret true) cs.

(** Invariant 1: [m_Data] has [m_numRows] rows of [m_numColumns] elements. *)
Definition well_shaped (m : Matrix) : Prop :=
  length (m_Data m) = m_numRows m /\
  Forall (fun row => length row = m_numColumns m) (m_Data m).

(** Invariant 2: every stored element satisfies every constraint. *)
Definition constraints_hold (m : Matrix) : Prop :=
  Forall (Forall (satisfies_all (m_Constraints m))) (m_Data m).

Definition constraints_holdb (m : Matrix) : bool :=
  forallb (forallb (fun v => forallb (fun c => holds c v) (m_Constraints m)))
    (m_Data m).

(** The exception of a failed validation. *)
Definition violation : Exception := mkException constraintViolation.

(** ** Sample matrices *)

(** [Matrix(2, 2)]: two rows, two columns, all zero, no constraints. *)
Definition zeros_2x2 : Matrix := mkMatrix 2 2 [[0; 0]; [0; 0]]%Z [].

(** [Matrix({{1, 2, 3}})]: one row, three columns. *)
Definition one_row : Matrix := mkMatrix 1 3 [[1; 2; 3]]%Z [].

(** [Matrix({{1, 2}, {3, 4}})]. *)
Definition square_1234 : Matrix := mkMatrix 2 2 [[1; 2]; [3; 4]]%Z [].

(** [Matrix({{5}}, 0, {{equal, 0}})]. *)
Definition five_must_be_zero : Matrix :=
  mkMatrix 1 1 [[5]]%Z [mkConstraint equal 0].

(** The constraints [{{greaterOrEqual, 0}, {lessOrEqual, 9}}]. *)
Definition digits : list Constraint :=
  [mkConstraint greaterOrEqual 0; mkConstraint lessOrEqual 9].

(** [Matrix(2, 2, 5, digits)]. *)
Definition fives_2x2 : Matrix := mkMatrix 2 2 [[5; 5]; [5; 5]]%Z digits.

(** ** Histories of a matrix *)


(** A matrix as either constructor leaves it when it returns. *)
Inductive constructed : Matrix -> Prop :=
| constructed_of_size numRows numColumns fillWith constraints m :
    Matrix_of_size numRows numColumns fillWith constraints = (Ret tt, m) ->
    constructed m
| constructed_of_data data fillWith constraints m :
    Matrix_of_data data fillWith constraints = (Ret tt, m) ->
    constructed m.

(** One call of a mutating member function that returns. *)
Inductive mutation : Matrix -> Matrix -> Prop :=
| mutation_setRow row data m m' :
    setRow row data m = (Ret tt, m') -> mutation m m'
| mutation_setRow_rvalue row data m m' :
    setRow_rvalue row data m = (Ret tt, m') -> mutation m m'
| mutation_setColumn col data m m' :
    setColumn col data m = (Ret tt, m') -> mutation m m'
| mutation_setColumn_rvalue col data m m' :
    setColumn_rvalue col data m = (Ret tt, m') -> mutation m m'.

(** The members no member function writes after construction. *)
Definition same_frame (m m' : Matrix) : Prop :=
  m_numRows m' = m_numRows m /\ m_numColumns m' = m_numColumns m /\
  m_Constraints m' = m_Constraints m.

(** ** The constraint engine *)

Section ConstraintEngine.

Variable c : Constraint.
Variable val : Z.

Lemma check_returns : check c val = Ret (holds c val).
Proof. unfold holds, check. destruct c as [[] r]; reflexivity. Qed.

Lemma holds_comparison : holds c val = true <-> comparison (type c) val (value c).
Proof.
  unfold holds, check, comparison. destruct c as [[] r]; simpl.
  - apply Z.eqb_eq.
  - rewrite negb_true_iff. apply Z.eqb_neq.
  - rewrite Z.gtb_lt. lia.
  - rewrite Z.geb_le. lia.
  - apply Z.ltb_lt.
  - apply Z.leb_le.
Qed.

Lemma check_true_holds : check c val = Ret true <-> holds c val = true.
Proof.
  rewrite check_returns. split; [intros [= ->] | intros ->]; reflexivity.
Qed.

Lemma check_false_holds : check c val = Ret false <-> holds c val = false.
Proof.
  rewrite check_returns. split; [intros [= ->] | intros ->]; reflexivity.
Qed.

End ConstraintEngine.

Lemma satisfies_all_forallb cs val :
  satisfies_all cs val <-> forallb (fun c => holds c val) cs = true.
Proof.
  unfold satisfies_all. rewrite forallb_forall, Forall_forall.
  split; intros H c Hc.
  - apply check_true_holds, H, list_elem_of_In, Hc.
  - apply check_true_holds, H, list_elem_of_In, Hc.
Qed.

Lemma constraints_hold_holdb m :
  constraints_hold m <-> constraints_holdb m = true.
Proof.
  unfold constraints_hold, constraints_holdb.
  rewrite forallb_forall, Forall_forall. split; intros H row Hrow.
  - apply list_elem_of_In, H in Hrow. apply forallb_forall. intros v Hv.
    apply satisfies_all_forallb.
    rewrite Forall_forall in Hrow. apply Hrow, list_elem_of_In, Hv.
  - apply list_elem_of_In, H in Hrow. rewrite forallb_forall in Hrow.
    apply Forall_forall. intros v Hv.
    apply satisfies_all_forallb, Hrow, list_elem_of_In, Hv.
Qed.

(** ** Running the validation overloads *)

Lemma check_loop_run val cs (m : Matrix) :
  for_each cs (fun c =>
    ok <- lift (check c val) ;;
    if negb ok then throw constraintViolation else ret tt) m
  = (if forallb (fun c => holds c val) cs then Ret tt else Throw violation, m).
Proof.
  induction cs as [|c cs IH]; [reflexivity|].
  cbn [for_each forallb]. unfold bind at 1 2, lift.
  rewrite check_returns. destruct (holds c val); cbn.
  - apply IH.
  - reflexivity.
Qed.

Lemma checkConstraints_run val m :
  checkConstraints val m
  = (if forallb (fun c => holds c val) (m_Constraints m)
     then Ret tt else Throw violation, m).
Proof. unfold checkConstraints, bind at 1, get. apply check_loop_run. Qed.

Lemma checkConstraints_vec_run values m :
  checkConstraints_vec values m
  = (if forallb (fun v => forallb (fun c => holds c v) (m_Constraints m)) values
     then Ret tt else Throw violation, m).
Proof.
  unfold checkConstraints_vec.
  induction values as [|v values IH]; [reflexivity|].
  cbn [for_each forallb]. unfold bind at 1. rewrite checkConstraints_run.
  destruct (forallb _ (m_Constraints m)); cbn; [apply IH | reflexivity].
Qed.

Lemma checkConstraints_grid_run m :
  checkConstraints_grid m
  = (if constraints_holdb m then Ret tt else Throw violation, m).
Proof.
  unfold checkConstraints_grid, constraints_holdb, bind at 1, get.
  generalize (m_Data m) as rows.
  induction rows as [|row rows IH]; [reflexivity|].
  cbn [for_each forallb]. unfold bind at 1.
  change (for_each row (fun v => checkConstraints v))
    with (checkConstraints_vec row).
  rewrite checkConstraints_vec_run.
  destruct (forallb _ row); cbn; [apply IH | reflexivity].
Qed.

Lemma Forall_satisfies_forallb cs (values : list Z) :
  Forall (satisfies_all cs) values
  <-> forallb (fun v => forallb (fun c => holds c v) cs) values = true.
Proof.
  rewrite forallb_forall, Forall_forall. split; intros H v Hv.
  - apply satisfies_all_forallb, H, list_elem_of_In, Hv.
  - apply satisfies_all_forallb, H, list_elem_of_In, Hv.
Qed.

(** ** Running the constructors *)

Lemma fill_loop_run (fillWith : Z) n a m :
  for_each (seq a n) (fun _ =>
    m <- get ;;
    let row := replicate (m_numColumns m) 0%Z in
    let row := (fun _ => fillWith) <$> row in
    put (with_Data (m_Data m ++ [row]) m)) m
  = (Ret tt,
     with_Data (m_Data m ++ replicate n (replicate (m_numColumns m) fillWith)) m).
Proof.
  revert a m. induction n as [|n IH]; intros a m.
  - cbn. rewrite app_nil_r. destruct m; reflexivity.
  - cbn [seq for_each]. unfold bind at 1 2, get, put.
    rewrite IH. cbn. rewrite fmap_replicate, <- app_assoc. reflexivity.
Qed.

Lemma Matrix_of_size_run numRows numColumns fillWith constraints :
  Matrix_of_size numRows numColumns fillWith constraints
  = if forallb (fun c => holds c fillWith) constraints
    then (Ret tt, mkMatrix numRows numColumns
                    (replicate numRows (replicate numColumns fillWith))
                    constraints)
    else (Throw violation, mkMatrix numRows numColumns [] constraints).
Proof.
  unfold Matrix_of_size, bind at 1. rewrite checkConstraints_run.
  cbn [m_Constraints].
  destruct (forallb _ constraints); [|reflexivity].
  unfold bind at 1, get at 1. cbn [m_numRows].
  rewrite fill_loop_run. reflexivity.
Qed.

Lemma row_size_loop_run (rows : list (list Z)) m :
  for_each rows (fun row =>
    m <- get ;;
    if negb (length row =? m_numColumns m)
    then throw invalidSize else ret tt) m
  = (if forallb (fun row => length row =? m_numColumns m) rows
     then Ret tt else Throw (mkException invalidSize), m).
Proof.
  induction rows as [|row rows IH]; [reflexivity|].
  cbn [for_each forallb]. unfold bind at 1 2, get.
  destruct (length row =? m_numColumns m); cbn; [apply IH | reflexivity].
Qed.

Lemma Matrix_of_data_run data fillWith constraints :
  Matrix_of_data data fillWith constraints
  = match data with
    | [] => (Ret tt, mkMatrix 0 0 [] constraints)
    | front :: _ =>
        (if forallb (fun row => length row =? length front) data
         then Ret tt else Throw (mkException invalidSize),
         mkMatrix (length data) (length front) data constraints)
    end.
Proof.
  destruct data as [|front rest]; [reflexivity|].
  unfold Matrix_of_data, bind at 1, get. cbn [m_Data length Nat.ltb Nat.leb head].
  unfold bind at 1, put. unfold bind at 1, get.
  rewrite row_size_loop_run. reflexivity.
Qed.

Lemma Matrix_of_size_well_shaped numRows numColumns fillWith constraints m :
  Matrix_of_size numRows numColumns fillWith constraints = (Ret tt, m) ->
  well_shaped m /\ m_numRows m = numRows /\ m_numColumns m = numColumns
  /\ m_Constraints m = constraints.
Proof.
  rewrite Matrix_of_size_run. destruct (forallb _ constraints); [|discriminate].
  intros [= <-]. unfold well_shaped. cbn. rewrite length_replicate.
  repeat split. apply Forall_replicate, length_replicate.
Qed.

Lemma Matrix_of_size_constraints_hold numRows numColumns fillWith constraints m :
  Matrix_of_size numRows numColumns fillWith constraints = (Ret tt, m) ->
  constraints_hold m.
Proof.
  rewrite Matrix_of_size_run.
  destruct (forallb _ constraints) eqn:Hfill; [|discriminate].
  intros [= <-]. unfold constraints_hold. cbn.
  apply Forall_replicate, Forall_replicate, satisfies_all_forallb, Hfill.
Qed.

Lemma Matrix_of_data_well_shaped data fillWith constraints m :
  Matrix_of_data data fillWith constraints = (Ret tt, m) ->
  well_shaped m /\ m_Data m = data /\ m_Constraints m = constraints.
Proof.
  rewrite Matrix_of_data_run. destruct data as [|front rest].
  - intros [= <-]. unfold well_shaped. cbn. auto.
  - destruct (forallb _ (front :: rest)) eqn:Hrows; [|discriminate].
    intros [= <-]. unfold well_shaped. cbn [m_Data m_numRows m_numColumns m_Constraints].
    repeat split. rewrite forallb_forall in Hrows. apply Forall_forall.
    intros row Hrow. apply Nat.eqb_eq, Hrows, list_elem_of_In, Hrow.
Qed.

(** The grid constructor does not look at the constraints. *)
Lemma Matrix_of_data_constraints_unused data fillWith constraints :
  (Matrix_of_data data fillWith constraints).1
  = (Matrix_of_data data fillWith []).1.
Proof.
  rewrite !Matrix_of_data_run. destruct data as [|front rest]; reflexivity.
Qed.

(** The grid constructor has one way to fail. *)
Lemma Matrix_of_data_throws_only_invalidSize data fillWith constraints e m :
  Matrix_of_data data fillWith constraints = (Throw e, m) ->
  e = mkException invalidSize.
Proof.
  rewrite Matrix_of_data_run. destruct data as [|front rest]; [discriminate|].
  destruct (forallb _ (front :: rest)); [discriminate|]. intros [= <- _].
  reflexivity.
Qed.

(** ** Rows *)

Lemma getRow_run row m :
  getRow row m
  = (if m_numRows m <? row then Throw (mkException outOfRange)
     else match m_Data m !! row with
          | Some r => Ret r
          | None => Undefined
          end, m).
Proof.
  unfold getRow, bind, get, throw.
  destruct (m_numRows m <? row); [reflexivity|].
  destruct (m_Data m !! row); reflexivity.
Qed.

Lemma setRow_run row data m :
  setRow row data m
  = if m_numRows m <? row then (Throw (mkException outOfRange), m)
    else if negb (length data =? m_numColumns m)
    then (Throw (mkException invalidSize), m)
    else if forallb (fun v => forallb (fun c => holds c v) (m_Constraints m)) data
    then if row <? length (m_Data m)
         then (Ret tt, with_Data (<[row := data]> (m_Data m)) m)
         else (Undefined, m)
    else (Throw violation, m).
Proof.
  unfold setRow, bind at 1, get at 1.
  destruct (m_numRows m <? row); [reflexivity|].
  destruct (negb (length data =? m_numColumns m)); [reflexivity|].
  unfold bind at 1. rewrite checkConstraints_vec_run.
  destruct (forallb _ data); [|reflexivity].
  unfold bind, get. destruct (row <? length (m_Data m)); reflexivity.
Qed.

Lemma setRow_rvalue_eq row data : setRow_rvalue row data = setRow row data.
Proof. reflexivity. Qed.

(** [getRow] is a const member: whatever it returns, the object is as it
    was. *)
Lemma getRow_const row m : (getRow row m).2 = m.
Proof. rewrite getRow_run. reflexivity. Qed.

(** [getRow] throws exactly when the index exceeds [m_numRows]. *)
Lemma getRow_outOfRange_iff row m :
  (getRow row m).1 = Throw (mkException outOfRange) <-> m_numRows m < row.
Proof.
  rewrite getRow_run. cbn [fst]. destruct (Nat.ltb_spec (m_numRows m) row).
  - split; [auto | reflexivity].
  - split; [|lia]. destruct (m_Data m !! row); discriminate.
Qed.

Lemma setRow_outOfRange_iff row data m :
  (setRow row data m).1 = Throw (mkException outOfRange) <-> m_numRows m < row.
Proof.
  rewrite setRow_run. destruct (Nat.ltb_spec (m_numRows m) row).
  - split; [auto | reflexivity].
  - split; [|lia].
    destruct (negb _); [discriminate|].
    destruct (forallb _ data); [|discriminate].
    destruct (row <? length (m_Data m)); discriminate.
Qed.

(** A [setRow] that throws has written nothing. *)
Lemma setRow_throw_keeps_state row data m e m' :
  setRow row data m = (Throw e, m') -> m' = m.
Proof.
  rewrite setRow_run.
  destruct (m_numRows m <? row); [intros [= _ <-]; reflexivity|].
  destruct (negb _); [intros [= _ <-]; reflexivity|].
  destruct (forallb _ data); [|intros [= _ <-]; reflexivity].
  destruct (row <? length (m_Data m)); discriminate.
Qed.

(** The order of the checks in [setRow], as the code has them. *)
Lemma setRow_check_order row data m :
  (m_numRows m < row ->
     setRow row data m = (Throw (mkException outOfRange), m)) /\
  (row <= m_numRows m -> length data <> m_numColumns m ->
     setRow row data m = (Throw (mkException invalidSize), m)) /\
  (row <= m_numRows m -> length data = m_numColumns m ->
   ~ Forall (satisfies_all (m_Constraints m)) data ->
     setRow row data m = (Throw violation, m)).
Proof.
  rewrite setRow_run. repeat split.
  - intros H. apply Nat.ltb_lt in H. rewrite H. reflexivity.
  - intros H Hlen. apply Nat.ltb_ge in H. apply Nat.eqb_neq in Hlen.
    rewrite H, Hlen. reflexivity.
  - intros H Hlen Hbad. apply Nat.ltb_ge in H. apply Nat.eqb_eq in Hlen.
    rewrite H, Hlen. cbn [negb].
    destruct (forallb _ data) eqn:Hall; [|reflexivity].
    exfalso. apply Hbad, Forall_satisfies_forallb, Hall.
Qed.

Lemma setRow_preserves_invariants row data m m' :
  well_shaped m -> constraints_hold m ->
  setRow row data m = (Ret tt, m') ->
  well_shaped m' /\ constraints_hold m' /\
  m_numRows m' = m_numRows m /\ m_numColumns m' = m_numColumns m /\
  m_Constraints m' = m_Constraints m.
Proof.
  intros [Hrows Hcols] Hinv. rewrite setRow_run.
  destruct (m_numRows m <? row); [discriminate|].
  destruct (length data =? m_numColumns m) eqn:Hlen; [|discriminate].
  cbn [negb]. destruct (forallb _ data) eqn:Hall; [|discriminate].
  destruct (row <? length (m_Data m)); [|discriminate].
  intros [= <-]. apply Nat.eqb_eq in Hlen.
  apply Forall_satisfies_forallb in Hall.
  unfold well_shaped, constraints_hold. cbn. rewrite length_insert.
  repeat split; try assumption.
  - apply Forall_insert; assumption.
  - apply Forall_insert; assumption.
Qed.

(** ** Columns *)

Lemma assign_cell_run row col val m :
  assign_cell row col val m
  = match m_Data m !! row with
    | None => (Undefined, m)
    | Some r =>
        if col <? length r
        then (Ret tt, with_Data (<[row := <[col := val]> r]> (m_Data m)) m)
        else (Undefined, m)
    end.
Proof.
  unfold assign_cell, bind, get.
  destruct (m_Data m !! row) as [r|]; [|reflexivity].
  destruct (col <? length r); reflexivity.
Qed.

Lemma assign_cell_never_throws row col val m e m' :
  assign_cell row col val m <> (Throw e, m').
Proof.
  rewrite assign_cell_run. destruct (m_Data m !! row) as [r|]; [|discriminate].
  destruct (col <? length r); discriminate.
Qed.

Lemma setColumn_loop_never_throws col data row m e m' :
  setColumn_loop col data row m <> (Throw e, m').
Proof.
  revert row m. induction data as [|val rest IH]; intros row m; [discriminate|].
  cbn [setColumn_loop]. unfold bind.
  destruct (assign_cell row col val m) as [[[]| | |] m1] eqn:Hcell;
    try discriminate.
  - apply IH.
  - exfalso. exact (assign_cell_never_throws _ _ _ _ _ _ Hcell).
Qed.

Lemma setColumn_run col data m :
  setColumn col data m
  = if m_numColumns m <? col then (Throw (mkException outOfRange), m)
    else if negb (length data =? m_numRows m)
    then (Throw (mkException invalidSize), m)
    else if forallb (fun v => forallb (fun c => holds c v) (m_Constraints m)) data
    then setColumn_loop col data 0 m
    else (Throw violation, m).
Proof.
  unfold setColumn, bind at 1, get at 1.
  destruct (m_numColumns m <? col); [reflexivity|].
  destruct (negb (length data =? m_numRows m)); [reflexivity|].
  unfold bind at 1. rewrite checkConstraints_vec_run.
  destruct (forallb _ data); reflexivity.
Qed.

Lemma setColumn_rvalue_eq col data :
  setColumn_rvalue col data = setColumn col data.
Proof. reflexivity. Qed.

(** A [setColumn] that throws has written nothing. *)
Lemma setColumn_throw_keeps_state col data m e m' :
  setColumn col data m = (Throw e, m') -> m' = m.
Proof.
  rewrite setColumn_run.
  destruct (m_numColumns m <? col); [intros [= _ <-]; reflexivity|].
  destruct (negb _); [intros [= _ <-]; reflexivity|].
  destruct (forallb _ data); [|intros [= _ <-]; reflexivity].
  intros H. exfalso. exact (setColumn_loop_never_throws _ _ _ _ _ _ H).
Qed.

Lemma setColumn_outOfRange_iff col data m :
  (setColumn col data m).1 = Throw (mkException outOfRange)
  <-> m_numColumns m < col.
Proof.
  rewrite setColumn_run. destruct (Nat.ltb_spec (m_numColumns m) col).
  - split; [auto | reflexivity].
  - split; [|lia].
    destruct (negb _); [discriminate|].
    destruct (forallb _ data); [|discriminate].
    destruct (setColumn_loop col data 0 m) as [r m'] eqn:Hloop.
    cbn [fst]. intros ->.
    exfalso. exact (setColumn_loop_never_throws _ _ _ _ _ _ Hloop).
Qed.

(** The order of the checks in [setColumn], as the code has them. *)
Lemma setColumn_check_order col data m :
  (m_numColumns m < col ->
     setColumn col data m = (Throw (mkException outOfRange), m)) /\
  (col <= m_numColumns m -> length data <> m_numRows m ->
     setColumn col data m = (Throw (mkException invalidSize), m)) /\
  (col <= m_numColumns m -> length data = m_numRows m ->
   ~ Forall (satisfies_all (m_Constraints m)) data ->
     setColumn col data m = (Throw violation, m)).
Proof.
  rewrite setColumn_run. repeat split.
  - intros H. apply Nat.ltb_lt in H. rewrite H. reflexivity.
  - intros H Hlen. apply Nat.ltb_ge in H. apply Nat.eqb_neq in Hlen.
    rewrite H, Hlen. reflexivity.
  - intros H Hlen Hbad. apply Nat.ltb_ge in H. apply Nat.eqb_eq in Hlen.
    rewrite H, Hlen. cbn [negb].
    destruct (forallb _ data) eqn:Hall; [|reflexivity].
    exfalso. apply Hbad, Forall_satisfies_forallb, Hall.
Qed.

Lemma assign_cell_preserves_invariants row col val m m' :
  satisfies_all (m_Constraints m) val ->
  well_shaped m -> constraints_hold m ->
  assign_cell row col val m = (Ret tt, m') ->
  well_shaped m' /\ constraints_hold m' /\
  m_numRows m' = m_numRows m /\ m_numColumns m' = m_numColumns m /\
  m_Constraints m' = m_Constraints m.
Proof.
  intros Hval [Hrows Hcols] Hinv. rewrite assign_cell_run.
  destruct (m_Data m !! row) as [r|] eqn:Hr; [|discriminate].
  destruct (col <? length r); [|discriminate].
  intros [= <-]. unfold well_shaped, constraints_hold. cbn.
  rewrite length_insert. repeat split; try assumption.
  - apply Forall_insert; [assumption|]. rewrite length_insert.
    exact (Forall_lookup_1 _ _ _ _ Hcols Hr).
  - apply Forall_insert; [assumption|]. apply Forall_insert; [|assumption].
    exact (Forall_lookup_1 _ _ _ _ Hinv Hr).
Qed.

Lemma setColumn_loop_preserves_invariants col data row m m' :
  Forall (satisfies_all (m_Constraints m)) data ->
  well_shaped m -> constraints_hold m ->
  setColumn_loop col data row m = (Ret tt, m') ->
  well_shaped m' /\ constraints_hold m' /\
  m_numRows m' = m_numRows m /\ m_numColumns m' = m_numColumns m /\
  m_Constraints m' = m_Constraints m.
Proof.
  revert row m. induction data as [|val rest IH]; intros row m Hdata Hshape Hinv.
  - intros [= <-]. auto.
  - cbn [setColumn_loop]. unfold bind.
    destruct (assign_cell row col val m) as [[[]| | |] m1] eqn:Hcell;
      try discriminate.
    inversion Hdata as [|? ? Hval Hrest]; subst.
    destruct (assign_cell_preserves_invariants _ _ _ _ _ Hval Hshape Hinv Hcell)
      as (Hshape1 & Hinv1 & Hr1 & Hc1 & Hcs1).
    intros Hloop. rewrite <- Hcs1 in Hrest.
    destruct (IH _ _ Hrest Hshape1 Hinv1 Hloop) as (? & ? & Hr & Hc & Hcs).
    split; [assumption|]. split; [assumption|].
    split; [|split]; congruence.
Qed.

Lemma setColumn_preserves_invariants col data m m' :
  well_shaped m -> constraints_hold m ->
  setColumn col data m = (Ret tt, m') ->
  well_shaped m' /\ constraints_hold m' /\
  m_numRows m' = m_numRows m /\ m_numColumns m' = m_numColumns m /\
  m_Constraints m' = m_Constraints m.
Proof.
  intros Hshape Hinv. rewrite setColumn_run.
  destruct (m_numColumns m <? col); [discriminate|].
  destruct (negb _); [discriminate|].
  destruct (forallb _ data) eqn:Hall; [|discriminate].
  apply setColumn_loop_preserves_invariants; [|assumption..].
  apply Forall_satisfies_forallb, Hall.
Qed.



(** ** [getColumn] and the lifetime of its local *)

Section ColumnLocal.

Import Automatic.

Variable col : nat.

Lemma insert_last {A} (l : list A) (x y : A) :
  <[length l := y]> (l ++ [x]) = l ++ [y].
Proof.
  rewrite insert_app_r_alt by lia. rewrite Nat.sub_diag. reflexivity.
Qed.

Lemma declare_run init (st : storage) :
  declare init st = (Ret (length st), st ++ [Some init]).
Proof. reflexivity. Qed.

Lemma end_of_scope_run l (st : storage) :
  end_of_scope l st = (Ret tt, <[l := None]> st).
Proof. reflexivity. Qed.

Lemma push_back_run (st : storage) acc v :
  push_back (length st) v (st ++ [Some acc])
  = (Ret tt, st ++ [Some (acc ++ [v])]).
Proof.
  unfold push_back, bind, get, put.
  rewrite list_lookup_middle by reflexivity.
  rewrite insert_last. reflexivity.
Qed.

Lemma push_back_slots l v (st st' : storage) :
  push_back l v st = (Ret tt, st') -> length st' = length st.
Proof.
  unfold push_back, bind, get, put.
  destruct (st !! l) as [[vec|]|]; try discriminate.
  intros [= <-]. apply length_insert.
Qed.

(** While the local lives, the loop appends element [col] of each row. *)
Lemma column_loop_run (rows : list (list Z)) column (st : storage) acc :
  Forall2 (fun row v => row !! col = Some v) rows column ->
  for_each rows (fun row =>
    match row !! col with
    | Some v => push_back (length st) v
    | None => undefined
    end) (st ++ [Some acc])
  = (Ret tt, st ++ [Some (acc ++ column)]).
Proof.
  intros Hcol. revert acc.
  induction Hcol as [|row v rows column Hv _ IH]; intros acc.
  - rewrite app_nil_r. reflexivity.
  - cbn [for_each]. rewrite Hv. unfold bind at 1.
    rewrite push_back_run, IH, <- app_assoc. reflexivity.
Qed.

(** The loop keeps the number of slots. *)
Lemma column_loop_slots (rows : list (list Z)) l (st st' : storage) :
  for_each rows (fun row =>
    match row !! col with
    | Some v => push_back l v
    | None => undefined
    end) st = (Ret tt, st') ->
  length st' = length st.
Proof.
  revert st. induction rows as [|row rows IH]; intros st.
  - intros [= <-]. reflexivity.
  - cbn [for_each]. unfold bind at 1.
    destruct (row !! col) as [v|]; [|discriminate].
    destruct (push_back l v st) as [[[]| | |] st1] eqn:Hpush;
      try discriminate.
    intros H. apply IH in H. apply push_back_slots in Hpush. congruence.
Qed.

(** The loop has no [throw]. *)
Lemma column_loop_never_throws (rows : list (list Z)) l (st st' : storage) e :
  for_each rows (fun row =>
    match row !! col with
    | Some v => push_back l v
    | None => undefined
    end) st <> (Throw e, st').
Proof.
  revert st. induction rows as [|row rows IH]; intros st; [discriminate|].
  cbn [for_each]. unfold bind at 1.
  destruct (row !! col) as [v|]; [|discriminate].
  unfold push_back, bind at 1, get.
  destruct (st !! l) as [[vec|]|]; try discriminate.
  unfold put. apply IH.
Qed.

End ColumnLocal.

Lemma getColumn_outOfRange_iff m col st :
  (getColumn m col st).1 = Throw (mkException outOfRange) <-> m_numRows m < col.
Proof.
  unfold getColumn. destruct (Nat.ltb_spec (m_numRows m) col).
  - split; [auto | reflexivity].
  - split; [|lia]. unfold bind at 1. rewrite declare_run.
    unfold bind at 1.
    destruct (for_each _ _ _) as [[[]| | |] st'] eqn:Hloop; cbn;
      try discriminate.
    exfalso. exact (column_loop_never_throws _ _ _ _ _ _ Hloop).
Qed.

(** Whenever [getColumn] returns, the slot it returns a reference to has
    ended its lifetime: reading through the reference is undefined. *)
Lemma getColumn_returns_dead_local m col st l st' :
  getColumn m col st = (Ret l, st') ->
  st' !! l = Some None /\ Automatic.read l st' = (Undefined, st').
Proof.
  unfold getColumn. destruct (m_numRows m <? col); [discriminate|].
  unfold bind at 1. rewrite declare_run. unfold bind at 1.
  destruct (for_each _ _ _) as [[[]| | |] st2] eqn:Hloop; try discriminate.
  apply column_loop_slots in Hloop. rewrite length_app in Hloop. cbn in Hloop.
  unfold bind at 1. rewrite end_of_scope_run. unfold ret.
  intros [= <- <-].
  assert (<[length st := None]> st2 !! length st = Some (@None (list Z))) as Hdead
    by (apply list_lookup_insert_eq; lia).
  split; [exact Hdead|].
  unfold Automatic.read, bind, get. rewrite Hdead. reflexivity.
Qed.

(** On a matrix whose rows all have an element [col], with [col] passing
    the index test, the local holds the column, row by row, when [return]
    is reached, and is gone when the caller receives the reference. *)
Lemma getColumn_run m col st column :
  col <= m_numRows m ->
  Forall2 (fun row v => row !! col = Some v) (m_Data m) column ->
  getColumn m col st = (Ret (length st), st ++ [None]).
Proof.
  intros Hle Hcol. unfold getColumn.
  replace (m_numRows m <? col) with false by (symmetry; apply Nat.ltb_ge; lia).
  unfold bind at 1. rewrite declare_run. unfold bind at 1.
  rewrite (column_loop_run col _ column st []) by exact Hcol.
  unfold bind at 1. rewrite end_of_scope_run. unfold ret.
  rewrite insert_last. reflexivity.
Qed.

(** ** Exception messages *)

Lemma what_constraintViolation :
  what (mkException constraintViolation)
  = Ret "One or more elements of matrix violate constraints."%string.
Proof. reflexivity. Qed.

Lemma what_invalidSize :
  what (mkException invalidSize)
  = Ret "All rows in matrix must have the same size."%string.
Proof. reflexivity. Qed.

(** Every enumerator indexes an entry of [errMsg]. *)
Lemma what_returns e : exists s, what e = Ret s.
Proof. destruct e as [[]]; eexists; reflexivity. Qed.

(** ** The sample matrices are what the constructors build *)

Lemma zeros_2x2_constructed : Matrix_of_size 2 2 0 [] = (Ret tt, zeros_2x2).
Proof. reflexivity. Qed.

Lemma one_row_constructed :
  Matrix_of_data [[1; 2; 3]]%Z 0 [] = (Ret tt, one_row).
Proof. reflexivity. Qed.

Lemma square_1234_constructed :
  Matrix_of_data [[1; 2]; [3; 4]]%Z 0 [] = (Ret tt, square_1234).
Proof. reflexivity. Qed.

Lemma fives_2x2_constructed : Matrix_of_size 2 2 5 digits = (Ret tt, fives_2x2).
Proof. reflexivity. Qed.

(** The scenarios of the row and column contract. *)
Example setRow_rejects_ten :
  setRow 0 [1; 10]%Z fives_2x2 = (Throw violation, fives_2x2)
  /\ getRow 0 fives_2x2 = (Ret [5; 5]%Z, fives_2x2).
Proof. split; reflexivity. Qed.

Example setColumn_square :
  setColumn 1 [20; 40]%Z square_1234
  = (Ret tt, mkMatrix 2 2 [[1; 20]; [3; 40]]%Z []).
Proof. reflexivity. Qed.

Example ragged_grid_rejected :
  (Matrix_of_data [[1; 2]; [3]]%Z 0 []).1 = Throw (mkException invalidSize).
Proof. reflexivity. Qed.

(** ** The specification, claim by claim *)

(** C1. The grid-based constructor is to validate every element of [data]
    against every constraint and fail with [constraintViolation] when one
    is violated. The code never calls [checkConstraints] there: on the grid
    [{{5}}] with the constraint "equal to 0" the constructor returns
    normally and stores the 5, although [check] rejects 5. *)
Theorem Matrix_of_data_stores_unchecked_element :
  Matrix_of_data [[5]]%Z 0 [mkConstraint equal 0] = (Ret tt, five_must_be_zero)
  /\ check (mkConstraint equal 0) 5 = Ret false.
Proof. split; reflexivity. Qed.

(** C2. After every successful public operation every stored element is to
    satisfy every constraint. The size-based constructor establishes this
    ([Matrix_of_size_constraints_hold]) and [setRow] and [setColumn]
    preserve it ([setRow_preserves_invariants],
    [setColumn_preserves_invariants]), but the grid-based constructor
    returns a matrix in which it is false. *)
Theorem Matrix_of_data_breaks_constraints_hold :
  exists m,
    Matrix_of_data [[5]]%Z 0 [mkConstraint equal 0] = (Ret tt, m)
    /\ ~ constraints_hold m.
Proof.
  exists five_must_be_zero. split; [reflexivity|].
  rewrite constraints_hold_holdb. discriminate.
Qed.

(** C3. [OutOfRange] is to be raised exactly for an index outside
    [0, numRows) (rows) or [0, numColumns) (columns). The code tests
    [index > bound], so index 2 of a 2x2 matrix passes the test of
    [getRow], [setRow], [getColumn] and [setColumn] and runs into an
    out-of-bounds access instead of a throw; and [getColumn] tests against
    [m_numRows], so column 2 of a 1x3 matrix, which exists, is refused with
    [outOfRange]. *)
Theorem index_tests_miss_the_bound :
  (getRow 2 zeros_2x2).1 = Undefined
  /\ (setRow 2 [0; 0]%Z zeros_2x2).1 = Undefined
  /\ (setColumn 2 [0; 0]%Z zeros_2x2).1 = Undefined
  /\ (getColumn zeros_2x2 2 []).1 = Undefined
  /\ (getColumn one_row 2 []).1 = Throw (mkException outOfRange).
Proof. repeat split; reflexivity. Qed.

(** C4. A bad index is to be reported as [OutOfRange] before a wrong length
    is reported as [InvalidSize]. With index 2 on a 2x2 matrix and a
    replacement of length 1 the code reports [invalidSize] from both
    [setRow] and [setColumn]: the index test lets 2 through. (A throwing
    call never changes the matrix: [setRow_throw_keeps_state],
    [setColumn_throw_keeps_state].) *)
Theorem invalidSize_reported_for_bad_index :
  setRow 2 [1]%Z zeros_2x2 = (Throw (mkException invalidSize), zeros_2x2)
  /\ setColumn 2 [1]%Z zeros_2x2 = (Throw (mkException invalidSize), zeros_2x2).
Proof. split; reflexivity. Qed.

(** C5. The size-based constructor: when [fillValue] satisfies every
    constraint the result has [numRows] rows of [numColumns] elements, all
    equal to [fillValue]; when [fillValue] fails some constraint the
    constructor throws [constraintViolation] with [m_Data] still empty. *)
Theorem Matrix_of_size_spec numRows numColumns fillValue constraints :
  (satisfies_all constraints fillValue ->
     Matrix_of_size numRows numColumns fillValue constraints
     = (Ret tt,
        mkMatrix numRows numColumns
          (replicate numRows (replicate numColumns fillValue)) constraints))
  /\
  (Exists (fun c => check c fillValue = Ret false) constraints ->
     Matrix_of_size numRows numColumns fillValue constraints
     = (Throw (mkException constraintViolation),
        mkMatrix numRows numColumns [] constraints)).
Proof.
  rewrite Matrix_of_size_run. split.
  - intros Hall. apply satisfies_all_forallb in Hall. rewrite Hall. reflexivity.
  - intros Hbad. destruct (forallb _ constraints) eqn:Hall; [|reflexivity].
    exfalso. apply Exists_exists in Hbad as (c & Hc & Hfalse).
    rewrite forallb_forall in Hall.
    apply list_elem_of_In, Hall in Hc. apply check_false_holds in Hfalse.
    congruence.
Qed.

Lemma Matrix_of_size_spec_witness :
  (satisfies_all digits 5 /\
   Matrix_of_size 2 2 5 digits = (Ret tt, fives_2x2))
  /\
  (Exists (fun c => check c 10 = Ret false) digits /\
   Matrix_of_size 2 2 10 digits
   = (Throw (mkException constraintViolation), mkMatrix 2 2 [] digits)).
Proof.
  split.
  - assert (satisfies_all digits 5) as H by (repeat constructor).
    split; [exact H|]. exact (proj1 (Matrix_of_size_spec 2 2 5 digits) H).
  - assert (Exists (fun c => check c 10 = Ret false) digits) as H
      by (apply Exists_cons_tl, Exists_cons_hd; reflexivity).
    split; [exact H|]. exact (proj2 (Matrix_of_size_spec 2 2 10 digits) H).
Defined.

(** C6. [getColumn] is to return an independently owned sequence holding
    element [index] of every row, in row order. The code builds that
    sequence in the local [colData] and returns an rvalue reference to it:
    the local is destroyed when the function returns, and reading the
    column of a 2x2 matrix through the returned reference is undefined. *)
Theorem getColumn_reference_dangles :
  getColumn square_1234 0 [] = (Ret 0, [None])
  /\ (colData <- getColumn square_1234 0 ;; Automatic.read colData) []
     = (Undefined, [None]).
Proof. split; reflexivity. Qed.

(** C7. [check] returns, for each of the six kinds, the truth value of the
    comparison of the candidate with the reference value; it has no other
    outcome. *)
Theorem check_spec (c : Constraint) (candidate : Z) :
  exists b : bool,
    check c candidate = Ret b
    /\ (b = true <-> comparison (type c) candidate (value c)).
Proof.
  exists (holds c candidate). split.
  - apply check_returns.
  - apply holds_comparison.
Qed.

(** C8. An [OutOfRange] error is to report "Index is out of range when
    requested row/column data."; the third entry of [errMsg] reads
    "raw/column". *)
Theorem what_outOfRange_says_raw :
  what (mkException outOfRange)
  = Ret "Index is out of range when requested raw/column data."%string
  /\ what (mkException outOfRange)
     <> Ret "Index is out of range when requested row/column data."%string.
Proof. split; [reflexivity | discriminate]. Qed.

(** C9. On a well-shaped matrix, [setRow] with an index below [m_numRows]
    and a row of [m_numColumns] elements that all satisfy every constraint
    returns; [getRow] of that index then returns the row; every other row,
    the shape and the constraints are as before. *)
Theorem setRow_then_getRow (m : Matrix) (i : nat) (row : list Z) :
  well_shaped m ->
  i < m_numRows m ->
  length row = m_numColumns m ->
  Forall (satisfies_all (m_Constraints m)) row ->
  exists m',
    setRow i row m = (Ret tt, m')
    /\ getRow i m' = (Ret row, m')
    /\ (forall j, j <> i ->
          m_Data m' !! j = m_Data m !! j /\ (getRow j m').1 = (getRow j m).1)
    /\ length (m_Data m') = length (m_Data m)
    /\ m_numRows m' = m_numRows m
    /\ m_numColumns m' = m_numColumns m
    /\ m_Constraints m' = m_Constraints m.
Proof.
  intros [Hrows _] Hi Hlen Hall.
  exists (with_Data (<[i := row]> (m_Data m)) m).
  assert ((m_numRows m <? i) = false) as Hnot by (apply Nat.ltb_ge; lia).
  assert (<[i := row]> (m_Data m) !! i = Some row) as Hnew
    by (apply list_lookup_insert_eq; lia).
  split; [|split; [|split]].
  - rewrite setRow_run, Hnot.
    apply Nat.eqb_eq in Hlen. rewrite Hlen. cbn [negb].
    apply Forall_satisfies_forallb in Hall. rewrite Hall.
    replace (i <? length (m_Data m)) with true
      by (symmetry; apply Nat.ltb_lt; lia).
    reflexivity.
  - rewrite getRow_run. cbn [with_Data m_numRows m_Data].
    rewrite Hnot, Hnew. reflexivity.
  - intros j Hj.
    assert (<[i := row]> (m_Data m) !! j = m_Data m !! j) as Hold
      by (apply list_lookup_insert_ne; congruence).
    split; [exact Hold|].
    rewrite !getRow_run. cbn [with_Data m_numRows m_Data fst].
    rewrite Hold. reflexivity.
  - cbn. rewrite length_insert. auto.
Qed.

Lemma setRow_then_getRow_witness :
  exists m',
    setRow 1 [1; 9]%Z fives_2x2 = (Ret tt, m')
    /\ getRow 1 m' = (Ret [1; 9]%Z, m')
    /\ (forall j, j <> 1 ->
          m_Data m' !! j = m_Data fives_2x2 !! j
          /\ (getRow j m').1 = (getRow j fives_2x2).1)
    /\ length (m_Data m') = length (m_Data fives_2x2)
    /\ m_numRows m' = m_numRows fives_2x2
    /\ m_numColumns m' = m_numColumns fives_2x2
    /\ m_Constraints m' = m_Constraints fives_2x2.
Proof.
  apply (setRow_then_getRow fives_2x2 1 [1; 9]%Z).
  - split; [reflexivity | repeat constructor].
  - simpl. lia.
  - reflexivity.
  - repeat constructor.
Defined.

(** C10. The parameter [fillWith] of the grid-based constructor is not
    used: whatever two values are passed, the outcome and the object are
    the same. *)
Theorem Matrix_of_data_ignores_fillWith data (f1 f2 : Z) constraints :
  Matrix_of_data data f1 constraints = Matrix_of_data data f2 constraints.
Proof. reflexivity. Qed.


(** ** Further properties of the member functions *)

(** *** Shape is kept by the setters, whatever the constraints say *)

Lemma same_frame_refl m : same_frame m m.
Proof. repeat split. Qed.

Lemma same_frame_trans m1 m2 m3 :
  same_frame m1 m2 -> same_frame m2 m3 -> same_frame m1 m3.
Proof.
  intros (? & ? & ?) (? & ? & ?). repeat split; congruence.
Qed.

Lemma setRow_keeps_shape row data m m' :
  well_shaped m -> setRow row data m = (Ret tt, m') ->
  well_shaped m' /\ same_frame m m'.
Proof.
  intros [Hrows Hcols]. rewrite setRow_run.
  destruct (m_numRows m <? row); [discriminate|].
  destruct (length data =? m_numColumns m) eqn:Hlen; [|discriminate].
  cbn [negb]. destruct (forallb _ data); [|discriminate].
  destruct (row <? length (m_Data m)); [|discriminate].
  intros [= <-]. apply Nat.eqb_eq in Hlen.
  unfold well_shaped, same_frame. cbn. rewrite length_insert.
  repeat split; try assumption. apply Forall_insert; assumption.
Qed.

Lemma assign_cell_keeps_shape row col val m m' :
  well_shaped m -> assign_cell row col val m = (Ret tt, m') ->
  well_shaped m' /\ same_frame m m'.
Proof.
  intros [Hrows Hcols]. rewrite assign_cell_run.
  destruct (m_Data m !! row) as [r|] eqn:Hr; [|discriminate].
  destruct (col <? length r); [|discriminate].
  intros [= <-]. unfold well_shaped, same_frame. cbn.
  rewrite length_insert. repeat split; try assumption.
  apply Forall_insert; [assumption|]. rewrite length_insert.
  exact (Forall_lookup_1 _ _ _ _ Hcols Hr).
Qed.

Lemma setColumn_loop_keeps_shape col data row m m' :
  well_shaped m -> setColumn_loop col data row m = (Ret tt, m') ->
  well_shaped m' /\ same_frame m m'.
Proof.
  revert row m. induction data as [|val rest IH]; intros row m Hshape.
  - intros [= <-]. split; [assumption | apply same_frame_refl].
  - cbn [setColumn_loop]. unfold bind.
    destruct (assign_cell row col val m) as [[[]| | |] m1] eqn:Hcell;
      try discriminate.
    destruct (assign_cell_keeps_shape _ _ _ _ _ Hshape Hcell) as [Hshape1 Hf1].
    intros Hloop. destruct (IH _ _ Hshape1 Hloop) as [Hshape' Hf'].
    split; [assumption | exact (same_frame_trans _ _ _ Hf1 Hf')].
Qed.

Lemma setColumn_keeps_shape col data m m' :
  well_shaped m -> setColumn col data m = (Ret tt, m') ->
  well_shaped m' /\ same_frame m m'.
Proof.
  intros Hshape. rewrite setColumn_run.
  destruct (m_numColumns m <? col); [discriminate|].
  destruct (negb _); [discriminate|].
  destruct (forallb _ data); [|discriminate].
  apply setColumn_loop_keeps_shape, Hshape.
Qed.

Lemma mutation_keeps_shape m m' :
  well_shaped m -> mutation m m' -> well_shaped m' /\ same_frame m m'.
Proof.
  intros Hshape Hmut.
  destruct Hmut as [row data m m' H|row data m m' H|col data m m' H|col data m m' H].
  - exact (setRow_keeps_shape _ _ _ _ Hshape H).
  - rewrite setRow_rvalue_eq in H. exact (setRow_keeps_shape _ _ _ _ Hshape H).
  - exact (setColumn_keeps_shape _ _ _ _ Hshape H).
  - rewrite setColumn_rvalue_eq in H.
    exact (setColumn_keeps_shape _ _ _ _ Hshape H).
Qed.

Lemma mutation_keeps_constraints_hold m m' :
  well_shaped m -> constraints_hold m -> mutation m m' -> constraints_hold m'.
Proof.
  intros Hshape Hinv Hmut.
  destruct Hmut as [row data m m' H|row data m m' H|col data m m' H|col data m m' H].
  - apply (setRow_preserves_invariants _ _ _ _ Hshape Hinv H).
  - rewrite setRow_rvalue_eq in H.
    apply (setRow_preserves_invariants _ _ _ _ Hshape Hinv H).
  - apply (setColumn_preserves_invariants _ _ _ _ Hshape Hinv H).
  - rewrite setColumn_rvalue_eq in H.
    apply (setColumn_preserves_invariants _ _ _ _ Hshape Hinv H).
Qed.

Lemma constructed_well_shaped m : constructed m -> well_shaped m.
Proof.
  intros Hm. destruct Hm as [nr nc f cs m H|data f cs m H].
  - apply (Matrix_of_size_well_shaped _ _ _ _ _ H).
  - apply (Matrix_of_data_well_shaped _ _ _ _ H).
Qed.

(** A call of [setRow] that passes every test, on a well-shaped matrix. *)
Lemma setRow_accepted i row m :
  well_shaped m -> i < m_numRows m -> length row = m_numColumns m ->
  Forall (satisfies_all (m_Constraints m)) row ->
  setRow i row m = (Ret tt, with_Data (<[i := row]> (m_Data m)) m).
Proof.
  intros [Hrows _] Hi Hlen Hall. rewrite setRow_run.
  replace (m_numRows m <? i) with false by (symmetry; apply Nat.ltb_ge; lia).
  apply Nat.eqb_eq in Hlen. rewrite Hlen. cbn [negb].
  apply Forall_satisfies_forallb in Hall. rewrite Hall.
  replace (i <? length (m_Data m)) with true
    by (symmetry; apply Nat.ltb_lt; lia).
  reflexivity.
Qed.

Lemma with_Data_well_shaped i row m :
  well_shaped m -> length row = m_numColumns m ->
  well_shaped (with_Data (<[i := row]> (m_Data m)) m).
Proof.
  intros [Hrows Hcols] Hlen. unfold well_shaped. cbn.
  rewrite length_insert. split; [assumption|].
  apply Forall_insert; assumption.
Qed.

(** Rows that all have an element [col] have a column [col]. *)
Lemma column_exists col (rows : list (list Z)) :
  Forall (fun row => col < length row) rows ->
  exists column, Forall2 (fun row v => row !! col = Some v) rows column.
Proof.
  induction 1 as [|row rows Hrow _ [column IH]].
  - exists []. constructor.
  - destruct (lookup_lt_is_Some_2 row col Hrow) as [v Hv].
    exists (v :: column). constructor; assumption.
Qed.

(** *** Construction from a grid *)

(** X1. The grid-based constructor returns exactly when every row has the
    size of the first one; the object then has as many rows as [data], the
    first row's size as [m_numColumns] (0 for an empty grid), and [data]
    and [constraints] stored as given. When some row has another size it
    throws [invalidSize]. *)
Theorem Matrix_of_data_outcome data fillWith constraints :
  (Forall (fun row => length row = from_option length 0 (head data)) data ->
     Matrix_of_data data fillWith constraints
     = (Ret tt,
        mkMatrix (length data) (from_option length 0 (head data))
          data constraints))
  /\
  (Exists (fun row => length row <> from_option length 0 (head data)) data ->
     (Matrix_of_data data fillWith constraints).1
     = Throw (mkException invalidSize)).
Proof.
  rewrite Matrix_of_data_run. destruct data as [|front rest].
  - split; [reflexivity|]. intros H. inversion H.
  - cbn [head from_option length]. split.
    + intros Hall.
      replace (forallb _ (front :: rest)) with true; [reflexivity|].
      symmetry. apply forallb_forall. intros row Hrow. apply Nat.eqb_eq.
      rewrite Forall_forall in Hall. apply Hall, list_elem_of_In, Hrow.
    + intros Hbad. destruct (forallb _ (front :: rest)) eqn:Hall;
        [|reflexivity].
      exfalso. apply Exists_exists in Hbad as (row & Hrow & Hne).
      rewrite forallb_forall in Hall.
      apply list_elem_of_In, Hall, Nat.eqb_eq in Hrow. contradiction.
Qed.

Lemma Matrix_of_data_outcome_witness :
  (Forall (fun row => length row = 2) [[1; 2]; [3; 4]]%Z /\
   Matrix_of_data [[1; 2]; [3; 4]]%Z 7 digits
   = (Ret tt, mkMatrix 2 2 [[1; 2]; [3; 4]]%Z digits))
  /\
  (Exists (fun row => length row <> 2) [[1; 2]; [3]]%Z /\
   (Matrix_of_data [[1; 2]; [3]]%Z 7 digits).1
   = Throw (mkException invalidSize)).
Proof.
  split.
  - assert (Forall (fun row : list Z => length row = 2) [[1; 2]; [3; 4]]%Z)
      as H by (repeat constructor).
    split; [exact H|].
    exact (proj1 (Matrix_of_data_outcome [[1; 2]; [3; 4]]%Z 7 digits) H).
  - assert (Exists (fun row : list Z => length row <> 2) [[1; 2]; [3]]%Z)
      as H by (apply Exists_cons_tl, Exists_cons_hd; simpl; lia).
    split; [exact H|].
    exact (proj2 (Matrix_of_data_outcome [[1; 2]; [3]]%Z 7 digits) H).
Defined.

(** X2. After the grid-based constructor has returned, [getRow] of an
    index below the number of supplied rows returns that row as supplied,
    and leaves the matrix as it is. *)
Theorem Matrix_of_data_getRow data fillWith constraints m i row :
  Matrix_of_data data fillWith constraints = (Ret tt, m) ->
  data !! i = Some row ->
  getRow i m = (Ret row, m).
Proof.
  intros Hctor Hrow.
  destruct (Matrix_of_data_well_shaped _ _ _ _ Hctor) as ([Hrows _] & Hdata & _).
  rewrite getRow_run, Hdata, Hrow.
  apply lookup_lt_Some in Hrow. rewrite Hdata in Hrows.
  replace (m_numRows m <? i) with false by (symmetry; apply Nat.ltb_ge; lia).
  reflexivity.
Qed.

Lemma Matrix_of_data_getRow_witness :
  getRow 1 square_1234 = (Ret [3; 4]%Z, square_1234).
Proof.
  apply (Matrix_of_data_getRow [[1; 2]; [3; 4]]%Z 0 [] square_1234 1 [3; 4]%Z);
    reflexivity.
Defined.

(** *** Invariants along every history *)

(** X3. A matrix built by either constructor and then changed by any
    number of returning [setRow] and [setColumn] calls (either overload)
    has [m_numRows] rows of [m_numColumns] elements, and its [m_numRows],
    [m_numColumns] and [m_Constraints] are those it was constructed
    with. *)
Theorem shape_kept_along_history m0 m :
  constructed m0 -> rtc mutation m0 m ->
  well_shaped m /\ same_frame m0 m.
Proof.
  intros Hctor Hpath. apply constructed_well_shaped in Hctor.
  induction Hpath as [m|m1 m2 m3 Hstep _ IH].
  - split; [assumption | apply same_frame_refl].
  - destruct (mutation_keeps_shape _ _ Hctor Hstep) as [Hshape2 Hf12].
    destruct (IH Hshape2) as [Hshape3 Hf23].
    split; [assumption | exact (same_frame_trans _ _ _ Hf12 Hf23)].
Qed.

Lemma shape_kept_along_history_witness :
  well_shaped (mkMatrix 2 2 [[2; 5]; [3; 9]]%Z digits)
  /\ same_frame fives_2x2 (mkMatrix 2 2 [[2; 5]; [3; 9]]%Z digits).
Proof.
  apply (shape_kept_along_history fives_2x2).
  - apply (constructed_of_size 2 2 5 digits). reflexivity.
  - apply (rtc_l _ _ (mkMatrix 2 2 [[5; 5]; [1; 9]]%Z digits)).
    + apply (mutation_setRow 1 [1; 9]%Z). reflexivity.
    + apply (rtc_l _ _ (mkMatrix 2 2 [[2; 5]; [3; 9]]%Z digits)).
      * apply (mutation_setColumn 0 [2; 3]%Z). reflexivity.
      * apply rtc_refl.
Defined.

(** X4. A matrix built by the size-based constructor and then changed by
    any number of returning [setRow] and [setColumn] calls holds only
    elements that satisfy every constraint. *)
Theorem constraints_hold_along_history numRows numColumns fillWith constraints
    m0 m :
  Matrix_of_size numRows numColumns fillWith constraints = (Ret tt, m0) ->
  rtc mutation m0 m ->
  constraints_hold m.
Proof.
  intros Hctor Hpath.
  pose proof (Matrix_of_size_constraints_hold _ _ _ _ _ Hctor) as Hinv.
  apply Matrix_of_size_well_shaped in Hctor as [Hshape _].
  induction Hpath as [m|m1 m2 m3 Hstep _ IH]; [assumption|].
  apply IH.
  - exact (proj1 (mutation_keeps_shape _ _ Hshape Hstep)).
  - exact (mutation_keeps_constraints_hold _ _ Hshape Hinv Hstep).
Qed.

Lemma constraints_hold_along_history_witness :
  constraints_hold (mkMatrix 2 2 [[2; 5]; [3; 9]]%Z digits).
Proof.
  apply (constraints_hold_along_history 2 2 5 digits fives_2x2).
  - reflexivity.
  - apply (rtc_l _ _ (mkMatrix 2 2 [[5; 5]; [1; 9]]%Z digits)).
    + apply (mutation_setRow_rvalue 1 [1; 9]%Z). reflexivity.
    + apply (rtc_l _ _ (mkMatrix 2 2 [[2; 5]; [3; 9]]%Z digits)).
      * apply (mutation_setColumn_rvalue 0 [2; 3]%Z). reflexivity.
      * apply rtc_refl.
Defined.

(** *** Reading a row *)

(** X5. [getRow] on a well-shaped matrix: an index below [m_numRows]
    returns that row, which has [m_numColumns] elements; the index
    [m_numRows] itself passes the test and indexes past the end; a larger
    index throws [outOfRange]. The matrix is unchanged in every case. *)
Theorem getRow_outcome m i :
  well_shaped m ->
  (i < m_numRows m ->
     exists row, m_Data m !! i = Some row /\ length row = m_numColumns m
                 /\ getRow i m = (Ret row, m))
  /\ (i = m_numRows m -> getRow i m = (Undefined, m))
  /\ (m_numRows m < i -> getRow i m = (Throw (mkException outOfRange), m)).
Proof.
  intros [Hrows Hcols]. rewrite getRow_run. repeat split.
  - intros Hi.
    destruct (lookup_lt_is_Some_2 (m_Data m) i ltac:(lia)) as [row Hrow].
    exists row. rewrite Hrow.
    replace (m_numRows m <? i) with false by (symmetry; apply Nat.ltb_ge; lia).
    repeat split. exact (Forall_lookup_1 _ _ _ _ Hcols Hrow).
  - intros ->. rewrite Nat.ltb_irrefl.
    rewrite lookup_ge_None_2 by lia. reflexivity.
  - intros Hi. apply Nat.ltb_lt in Hi. rewrite Hi. reflexivity.
Qed.

Lemma getRow_outcome_witness :
  well_shaped fives_2x2 /\
  (exists row, m_Data fives_2x2 !! 0 = Some row
               /\ length row = m_numColumns fives_2x2
               /\ getRow 0 fives_2x2 = (Ret row, fives_2x2))
  /\ getRow 2 fives_2x2 = (Undefined, fives_2x2)
  /\ getRow 3 fives_2x2 = (Throw (mkException outOfRange), fives_2x2).
Proof.
  assert (well_shaped fives_2x2) as H
    by (split; [reflexivity | repeat constructor]).
  split; [exact H|]. split; [|split].
  - apply (proj1 (getRow_outcome fives_2x2 0 H)). simpl. lia.
  - apply (proj1 (proj2 (getRow_outcome fives_2x2 2 H))). reflexivity.
  - apply (proj2 (proj2 (getRow_outcome fives_2x2 3 H))). simpl. lia.
Defined.

(** *** When the setters throw *)

(** X6. [setRow] throws exactly in three situations, tested in this
    order: [outOfRange] when the index exceeds [m_numRows]; otherwise
    [invalidSize] when the row does not have [m_numColumns] elements;
    otherwise [constraintViolation] when some element fails some
    constraint. In each of them the matrix is left exactly as it was. *)
Theorem setRow_throws row data m e m' :
  setRow row data m = (Throw e, m')
  <-> m' = m /\
      ((e = mkException outOfRange /\ m_numRows m < row)
       \/ (e = mkException invalidSize /\ row <= m_numRows m
           /\ length data <> m_numColumns m)
       \/ (e = mkException constraintViolation /\ row <= m_numRows m
           /\ length data = m_numColumns m
           /\ ~ Forall (satisfies_all (m_Constraints m)) data)).
Proof.
  split.
  - rewrite setRow_run.
    destruct (Nat.ltb_spec (m_numRows m) row) as [Hrow|Hrow].
    { intros [= <- <-]. split; [reflexivity|]. left. split; [reflexivity|lia]. }
    destruct (Nat.eqb_spec (length data) (m_numColumns m)) as [Hlen|Hlen];
      cbn [negb].
    2:{ intros [= <- <-]. split; [reflexivity|]. right. left. auto. }
    destruct (forallb _ data) eqn:Hall.
    { destruct (row <? length (m_Data m)); discriminate. }
    intros [= <- <-]. split; [reflexivity|]. right. right.
    repeat split; try assumption.
    intros Hsat. apply Forall_satisfies_forallb in Hsat. congruence.
  - intros [-> Hcase].
    destruct (setRow_check_order row data m) as (Hrange & Hsize & Hviol).
    destruct Hcase as [[-> H]|[(-> & H1 & H2)|(-> & H1 & H2 & H3)]]; auto.
Qed.

(** X7. [setColumn] throws exactly in three situations, tested in this
    order: [outOfRange] when the index exceeds [m_numColumns]; otherwise
    [invalidSize] when the column does not have [m_numRows] elements;
    otherwise [constraintViolation] when some element fails some
    constraint. In each of them no cell has been written: the loop that
    writes the cells runs after the last test and does not throw. *)
Theorem setColumn_throws col data m e m' :
  setColumn col data m = (Throw e, m')
  <-> m' = m /\
      ((e = mkException outOfRange /\ m_numColumns m < col)
       \/ (e = mkException invalidSize /\ col <= m_numColumns m
           /\ length data <> m_numRows m)
       \/ (e = mkException constraintViolation /\ col <= m_numColumns m
           /\ length data = m_numRows m
           /\ ~ Forall (satisfies_all (m_Constraints m)) data)).
Proof.
  split.
  - rewrite setColumn_run.
    destruct (Nat.ltb_spec (m_numColumns m) col) as [Hcol|Hcol].
    { intros [= <- <-]. split; [reflexivity|]. left. split; [reflexivity|lia]. }
    destruct (Nat.eqb_spec (length data) (m_numRows m)) as [Hlen|Hlen];
      cbn [negb].
    2:{ intros [= <- <-]. split; [reflexivity|]. right. left. auto. }
    destruct (forallb _ data) eqn:Hall.
    { intros Hloop. exfalso.
      exact (setColumn_loop_never_throws _ _ _ _ _ _ Hloop). }
    intros [= <- <-]. split; [reflexivity|]. right. right.
    repeat split; try assumption.
    intros Hsat. apply Forall_satisfies_forallb in Hsat. congruence.
  - intros [-> Hcase].
    destruct (setColumn_check_order col data m) as (Hrange & Hsize & Hviol).
    destruct Hcase as [[-> H]|[(-> & H1 & H2)|(-> & H1 & H2 & H3)]]; auto.
Qed.

(** X8. The index equal to the bound is not refused. On a well-shaped
    matrix, [setRow] at index [m_numRows] with an acceptable row, and
    [setColumn] at index [m_numColumns] with an acceptable column of a
    matrix that has a row, pass every test and then index out of bounds. *)
Theorem setters_at_the_bound m data :
  well_shaped m ->
  Forall (satisfies_all (m_Constraints m)) data ->
  (length data = m_numColumns m ->
     setRow (m_numRows m) data m = (Undefined, m))
  /\ (length data = m_numRows m -> 0 < m_numRows m ->
     setColumn (m_numColumns m) data m = (Undefined, m)).
Proof.
  intros [Hrows Hcols] Hall. apply Forall_satisfies_forallb in Hall. split.
  - intros Hlen. rewrite setRow_run, Nat.ltb_irrefl.
    apply Nat.eqb_eq in Hlen. rewrite Hlen, Hall. cbn [negb].
    replace (m_numRows m <? length (m_Data m)) with false
      by (symmetry; apply Nat.ltb_ge; lia).
    reflexivity.
  - intros Hlen Hpos. rewrite setColumn_run, Nat.ltb_irrefl.
    apply Nat.eqb_eq in Hlen as Hlenb. rewrite Hlenb, Hall. cbn [negb].
    destruct data as [|val rest]; [cbn in Hlen; lia|].
    cbn [setColumn_loop]. unfold bind. rewrite assign_cell_run.
    destruct (m_Data m) as [|r rows] eqn:Hdata; [cbn in Hrows; lia|].
    cbn [lookup list_lookup].
    inversion Hcols as [|? ? Hr _]; subst. rewrite Hr, Nat.ltb_irrefl.
    reflexivity.
Qed.

Lemma setters_at_the_bound_witness :
  setRow 2 [5; 5]%Z fives_2x2 = (Undefined, fives_2x2)
  /\ setColumn 2 [5; 5]%Z fives_2x2 = (Undefined, fives_2x2).
Proof.
  assert (well_shaped fives_2x2) as Hshape
    by (split; [reflexivity | repeat constructor]).
  assert (Forall (satisfies_all (m_Constraints fives_2x2)) [5; 5]%Z) as Hall
    by (repeat constructor).
  split.
  - apply (proj1 (setters_at_the_bound fives_2x2 [5; 5]%Z Hshape Hall)).
    reflexivity.
  - apply (proj2 (setters_at_the_bound fives_2x2 [5; 5]%Z Hshape Hall)).
    + reflexivity.
    + simpl. lia.
Defined.

(** *** Writing a column *)



(** X10. A matrix without rows accepts [setColumn] with an empty column
    at every index up to [m_numColumns], and nothing changes. *)
Theorem setColumn_without_rows col m :
  m_numRows m = 0 -> col <= m_numColumns m ->
  setColumn col [] m = (Ret tt, m).
Proof.
  intros Hrows Hcol. rewrite setColumn_run.
  replace (m_numColumns m <? col) with false by (symmetry; apply Nat.ltb_ge; lia).
  rewrite Hrows. reflexivity.
Qed.

Lemma setColumn_without_rows_witness :
  setColumn 3 [] (mkMatrix 0 3 [] digits) = (Ret tt, mkMatrix 0 3 [] digits).
Proof.
  apply (setColumn_without_rows 3 (mkMatrix 0 3 [] digits)).
  - reflexivity.
  - simpl. lia.
Defined.

(** *** Sequences of [setRow] *)

Section TwoRows.

Variable m : Matrix.
Hypothesis Hshape : well_shaped m.

Variables (i j : nat) (a b : list Z).
Hypothesis Hi : i < m_numRows m.
Hypothesis Hj : j < m_numRows m.
Hypothesis Ha : length a = m_numColumns m.
Hypothesis Hb : length b = m_numColumns m.
Hypothesis Hsat_a : Forall (satisfies_all (m_Constraints m)) a.
Hypothesis Hsat_b : Forall (satisfies_all (m_Constraints m)) b.

(** X11. Two accepted [setRow] calls on the same index leave the matrix
    as the second call alone does: the first row written is gone. *)
Theorem setRow_twice :
  (setRow i a ;; setRow i b) m = setRow i b m.
Proof using Hshape Hi Ha Hb Hsat_a Hsat_b.
  unfold bind.
  rewrite (setRow_accepted i a m) by assumption.
  rewrite (setRow_accepted i b m) by assumption.
  rewrite setRow_accepted;
    [| apply with_Data_well_shaped; assumption | assumption..].
  cbn. rewrite list_insert_insert_eq. reflexivity.
Qed.

(** X12. Two accepted [setRow] calls on different indices can be made in
    either order. *)
Theorem setRow_setRow_commute :
  i <> j ->
  (setRow i a ;; setRow j b) m = (setRow j b ;; setRow i a) m.
Proof using Hshape Hi Hj Ha Hb Hsat_a Hsat_b.
  intros Hne. unfold bind.
  rewrite (setRow_accepted i a m) by assumption.
  rewrite (setRow_accepted j b m) by assumption.
  rewrite !setRow_accepted
    by first [assumption | apply with_Data_well_shaped; assumption].
  cbn. rewrite list_insert_insert_ne by congruence. reflexivity.
Qed.

End TwoRows.

Lemma setRow_twice_witness :
  (setRow 1 [1; 2]%Z ;; setRow 1 [3; 4]%Z) fives_2x2
  = setRow 1 [3; 4]%Z fives_2x2.
Proof.
  apply (setRow_twice fives_2x2).
  - split; [reflexivity | repeat constructor].
  - simpl. lia.
  - reflexivity.
  - reflexivity.
  - repeat constructor.
  - repeat constructor.
Defined.

Lemma setRow_setRow_commute_witness :
  (setRow 0 [1; 2]%Z ;; setRow 1 [3; 4]%Z) fives_2x2
  = (setRow 1 [3; 4]%Z ;; setRow 0 [1; 2]%Z) fives_2x2.
Proof.
  apply (setRow_setRow_commute fives_2x2).
  - split; [reflexivity | repeat constructor].
  - simpl. lia.
  - simpl. lia.
  - reflexivity.
  - reflexivity.
  - repeat constructor.
  - repeat constructor.
  - lia.
Defined.

(** X13. Writing back the row that [getRow] returned changes nothing,
    provided the stored elements satisfy the constraints; when the stored
    row holds an element that violates a constraint, the same call throws
    [constraintViolation]. *)
Theorem setRow_of_getRow m i row :
  well_shaped m ->
  i < m_numRows m ->
  getRow i m = (Ret row, m) ->
  (constraints_hold m -> setRow i row m = (Ret tt, m))
  /\ (~ Forall (satisfies_all (m_Constraints m)) row ->
      setRow i row m = (Throw (mkException constraintViolation), m)).
Proof.
  intros Hshape Hi. rewrite getRow_run.
  replace (m_numRows m <? i) with false by (symmetry; apply Nat.ltb_ge; lia).
  destruct (m_Data m !! i) as [r|] eqn:Hr; [|discriminate].
  intros [= ->].
  pose proof (Forall_lookup_1 _ _ _ _ (proj2 Hshape) Hr) as Hlen.
  cbn beta in Hlen. split.
  - intros Hinv.
    rewrite setRow_accepted; try assumption.
    + rewrite (list_insert_id _ _ _ Hr). destruct m; reflexivity.
    + exact (Forall_lookup_1 _ _ _ _ Hinv Hr).
  - intros Hbad.
    apply (proj2 (proj2 (setRow_check_order i row m))); [lia | assumption..].
Qed.

Lemma setRow_of_getRow_witness :
  setRow 0 [5; 5]%Z fives_2x2 = (Ret tt, fives_2x2)
  /\ setRow 0 [5]%Z five_must_be_zero
     = (Throw (mkException constraintViolation), five_must_be_zero).
Proof.
  split.
  - apply (proj1 (setRow_of_getRow fives_2x2 0 [5; 5]%Z
                    ltac:(split; [reflexivity | repeat constructor])
                    ltac:(simpl; lia) eq_refl)).
    repeat constructor.
  - apply (proj2 (setRow_of_getRow five_must_be_zero 0 [5]%Z
                    ltac:(split; [reflexivity | repeat constructor])
                    ltac:(simpl; lia) eq_refl)).
    intros H. inversion H as [|? ? Hsat _]. inversion Hsat as [|? ? Hc _].
    discriminate Hc.
Defined.

(** *** Reading a column *)

(** X14. [getColumn] on a well-shaped matrix compares the column index
    with the number of rows: an index above [m_numRows] throws
    [outOfRange], whatever [m_numColumns] is; an index that passes and is
    below [m_numColumns] returns a reference to a fresh local that no
    longer lives, leaving the slots that were there untouched; an index
    that passes and is not below [m_numColumns], on a matrix with a row,
    indexes a row out of bounds. *)
Theorem getColumn_outcome m col (st : Automatic.storage) :
  well_shaped m ->
  (m_numRows m < col ->
     getColumn m col st = (Throw (mkException outOfRange), st))
  /\ (col <= m_numRows m -> col < m_numColumns m ->
     getColumn m col st = (Ret (length st), st ++ [None]))
  /\ (col <= m_numRows m -> m_numColumns m <= col -> 0 < m_numRows m ->
     (getColumn m col st).1 = Undefined).
Proof.
  intros [Hrows Hcols]. repeat split.
  - intros Hcol. unfold getColumn. apply Nat.ltb_lt in Hcol. rewrite Hcol.
    reflexivity.
  - intros Hpass Hcol.
    destruct (column_exists col (m_Data m)) as [column Hcolumn].
    + eapply Forall_impl; [exact Hcols|]. cbn. intros r ->. exact Hcol.
    + exact (getColumn_run m col st column Hpass Hcolumn).
  - intros Hpass Hcol Hpos. unfold getColumn.
    replace (m_numRows m <? col) with false by (symmetry; apply Nat.ltb_ge; lia).
    unfold bind at 1. rewrite declare_run. unfold bind at 1.
    destruct (m_Data m) as [|r rows] eqn:Hdata; [cbn in Hrows; lia|].
    inversion Hcols as [|? ? Hr _]; subst.
    cbn [for_each]. unfold bind at 1.
    rewrite (lookup_ge_None_2 r col) by lia. reflexivity.
Qed.

Lemma getColumn_outcome_witness :
  getColumn one_row 2 [] = (Throw (mkException outOfRange), [])
  /\ getColumn one_row 1 [] = (Ret 0, [None])
  /\ (getColumn fives_2x2 2 []).1 = Undefined.
Proof.
  assert (well_shaped one_row) as H1
    by (split; [reflexivity | repeat constructor]).
  assert (well_shaped fives_2x2) as H2
    by (split; [reflexivity | repeat constructor]).
  split; [|split].
  - apply (proj1 (getColumn_outcome one_row 2 [] H1)). simpl. lia.
  - apply (proj1 (proj2 (getColumn_outcome one_row 1 [] H1))); simpl; lia.
  - apply (proj2 (proj2 (getColumn_outcome fives_2x2 2 [] H2))); simpl; lia.
Defined.

(** X15. No caller ever reads a column: whatever the matrix, the index
    and the storage, reading the vector through the reference [getColumn]
    returned does not yield a value. *)
Theorem getColumn_never_readable m col (st st' : Automatic.storage) column :
  (colData <- getColumn m col ;; Automatic.read colData) st
  <> (Ret column, st').
Proof.
  unfold bind.
  destruct (getColumn m col st) as [[l| | |] st1] eqn:Hget; try discriminate.
  destruct (getColumn_returns_dead_local _ _ _ _ _ Hget) as [_ Hread].
  rewrite Hread. discriminate.
Qed.

(** *** The three validation overloads *)

(** X16. [checkConstraints(int)] returns when the value satisfies every
    constraint of the matrix and throws [constraintViolation] when it does
    not; it has no other outcome and leaves the matrix alone. *)
Theorem checkConstraints_outcome val m :
  (checkConstraints val m = (Ret tt, m)
   <-> satisfies_all (m_Constraints m) val)
  /\ (checkConstraints val m = (Throw (mkException constraintViolation), m)
      <-> ~ satisfies_all (m_Constraints m) val).
Proof.
  rewrite checkConstraints_run, satisfies_all_forallb.
  destruct (forallb _ (m_Constraints m)); split; split;
    try discriminate; try reflexivity; try congruence.
Qed.

(** X17. [checkConstraints(const vector<int>&)] returns when every value
    satisfies every constraint and throws [constraintViolation] when some
    value fails some constraint; it leaves the matrix alone. *)
Theorem checkConstraints_vec_outcome values m :
  (checkConstraints_vec values m = (Ret tt, m)
   <-> Forall (satisfies_all (m_Constraints m)) values)
  /\ (checkConstraints_vec values m
      = (Throw (mkException constraintViolation), m)
      <-> ~ Forall (satisfies_all (m_Constraints m)) values).
Proof.
  rewrite checkConstraints_vec_run, Forall_satisfies_forallb.
  destruct (forallb _ values); split; split;
    try discriminate; try reflexivity; try congruence.
Qed.

(** X18. [checkConstraints()], the overload over the whole grid, decides
    invariant 2: it returns when every stored element satisfies every
    constraint and throws [constraintViolation] otherwise, leaving the
    matrix alone. *)
Theorem checkConstraints_grid_outcome m :
  (checkConstraints_grid m = (Ret tt, m) <-> constraints_hold m)
  /\ (checkConstraints_grid m = (Throw (mkException constraintViolation), m)
      <-> ~ constraints_hold m).
Proof.
  rewrite checkConstraints_grid_run, constraints_hold_holdb.
  destruct (constraints_holdb m); split; split;
    try discriminate; try reflexivity; try congruence.
Qed.

(** *** Messages *)

(** X19. The message tells the kind: two exceptions with the same
    [what()] have the same type. *)
Theorem what_tells_the_kind e1 e2 : what e1 = what e2 -> e1 = e2.
Proof. destruct e1 as [[]], e2 as [[]]; intros H; try reflexivity; discriminate H. Qed.

Lemma what_tells_the_kind_witness :
  mkException invalidSize = mkException invalidSize.
Proof.
  apply (what_tells_the_kind (mkException invalidSize) (mkException invalidSize)).
  reflexivity.
Defined.
